(** * Token-usage alerting: the reconciliation of [httpTrigger.ts]

    The TypeScript program talks to four external services: the credential
    provider, the metrics API, Azure Table Storage and the e-mail service.
    We embed it as a program over a small free monad [prog] whose requests
    are exactly these calls (plus the clock and the console), and give the
    requests a meaning with an interpreter [run] over a world holding the
    table, a trace of the requests performed and an environment of external
    answers (transient failures, e-mail outcomes, writes by other, overlapping
    invocations). *)

From Stdlib Require Import ZArith String.
From stdpp Require Import base gmap strings list.

Open Scope Z_scope.
Open Scope string_scope.
Open Scope list_scope.

(** ** Data model *)

(** A table entity as the program builds and reads it. *)
Record entity := mkEntity {
  partitionKey : string;
  rowKey : string;
  SumToken : Z;
  ActionDone : bool;
  LastUpdated : string
}.

(** Thrown values: [StatusErr] are the SDK's [RestError]s (with a
    [statusCode]), [HttpErr] are axios errors (with [response.status] and
    [response.data]), [MsgErr] is a plain [new Error(msg)]. *)
Inductive err :=
  | StatusErr (statusCode : Z)
  | HttpErr (status : Z) (data : string)
  | MsgErr (message : string).

Definition statusCode (e : err) : option Z :=
  match e with StatusErr c => Some c | _ => None end.

(** [String(n)] of an integral number: its decimal digits. *)
Fixpoint uint_to_string (d : Decimal.uint) : string :=
  match d with
  | Decimal.Nil => ""
  | Decimal.D0 d => "0" ++ uint_to_string d
  | Decimal.D1 d => "1" ++ uint_to_string d
  | Decimal.D2 d => "2" ++ uint_to_string d
  | Decimal.D3 d => "3" ++ uint_to_string d
  | Decimal.D4 d => "4" ++ uint_to_string d
  | Decimal.D5 d => "5" ++ uint_to_string d
  | Decimal.D6 d => "6" ++ uint_to_string d
  | Decimal.D7 d => "7" ++ uint_to_string d
  | Decimal.D8 d => "8" ++ uint_to_string d
  | Decimal.D9 d => "9" ++ uint_to_string d
  end.

Definition Z_to_dec (z : Z) : string :=
  match Z.to_int z with
  | Decimal.Pos u => uint_to_string u
  | Decimal.Neg u => "-" ++ uint_to_string u
  end.

(** [error.message]: the text of a plain [Error]; for an axios HTTP error,
    axios's "Request failed with status code" and the status; the text of a
    [RestError] is composed by the SDK from the service's answer and is not
    modelled here (left empty). *)
Definition message (e : err) : string :=
  match e with
  | MsgErr m => m
  | HttpErr s _ => "Request failed with status code " ++ Z_to_dec s
  | StatusErr _ => ""
  end.

(** Answer of an external call: resolved or rejected. *)
Inductive result (A : Type) := Ok (a : A) | Err (e : err).
Arguments Ok {A} a.
Arguments Err {A} e.

(** One element of [response.data.value[0].timeseries]:
    [metadatavalues[0].value] and the [total]s of [data]. *)
Record deployment := mkDeployment {
  metadatavalue : string;
  data : list Z
}.

Record http_response := mkResponse { status : Z; body : string }.

(** What the program writes to the console. *)
Inductive log_msg :=
  | LogAlertSent (deploymentName : string)
  | LogNoAlert (deploymentName : string)
  | LogErrorProcessing (deploymentName : string) (e : err)
  | LogError (e : err).

(** ** The program monad *)

Inductive prog (A : Type) :=
  | Ret (a : A)
  | Throw (e : err)
  | GetEntity (pk rk : string) (k : result entity -> prog A)
  | CreateEntity (e : entity) (k : result unit -> prog A)
  | UpdateEntity (e : entity) (k : result unit -> prog A)
  | SendEmail (deploymentName : string) (sumToken : Z) (k : result string -> prog A)
  | GetToken (k : result string -> prog A)
  | GetMetrics (k : result (list deployment) -> prog A)
  | NowISO (k : string -> prog A)
  | Log (m : log_msg) (k : prog A).
Arguments Ret {A} a.
Arguments Throw {A} e.
Arguments GetEntity {A} pk rk k.
Arguments CreateEntity {A} e k.
Arguments UpdateEntity {A} e k.
Arguments SendEmail {A} deploymentName sumToken k.
Arguments GetToken {A} k.
Arguments GetMetrics {A} k.
Arguments NowISO {A} k.
Arguments Log {A} m k.

Fixpoint prog_bind {A B} (p : prog A) (f : A -> prog B) : prog B :=
  match p with
  | Ret a => f a
  | Throw e => Throw e
  | GetEntity pk rk k => GetEntity pk rk (fun r => prog_bind (k r) f)
  | CreateEntity e k => CreateEntity e (fun r => prog_bind (k r) f)
  | UpdateEntity e k => UpdateEntity e (fun r => prog_bind (k r) f)
  | SendEmail n s k => SendEmail n s (fun r => prog_bind (k r) f)
  | GetToken k => GetToken (fun r => prog_bind (k r) f)
  | GetMetrics k => GetMetrics (fun r => prog_bind (k r) f)
  | NowISO k => NowISO (fun r => prog_bind (k r) f)
  | Log m k => Log m (prog_bind k f)
  end.

Global Instance prog_ret : MRet prog := @Ret.
Global Instance prog_mbind : MBind prog := fun A B f p => prog_bind p f.

(** [try { p } catch (error) { h(error) }]: only the throws of [p] reach
    the handler, the handler's own throws propagate. *)
Fixpoint try_catch {A} (p : prog A) (h : err -> prog A) : prog A :=
  match p with
  | Ret a => Ret a
  | Throw e => h e
  | GetEntity pk rk k => GetEntity pk rk (fun r => try_catch (k r) h)
  | CreateEntity e k => CreateEntity e (fun r => try_catch (k r) h)
  | UpdateEntity e k => UpdateEntity e (fun r => try_catch (k r) h)
  | SendEmail n s k => SendEmail n s (fun r => try_catch (k r) h)
  | GetToken k => GetToken (fun r => try_catch (k r) h)
  | GetMetrics k => GetMetrics (fun r => try_catch (k r) h)
  | NowISO k => NowISO (fun r => try_catch (k r) h)
  | Log m k => Log m (try_catch k h)
  end.

(** [await] of a promise: a rejection is thrown. *)
Definition await {A} (r : result A) : prog A :=
  match r with Ok a => Ret a | Err e => Throw e end.

(** ** Library calls *)

Definition getEntity (pk rk : string) : prog entity := GetEntity pk rk await.
Definition createEntity (e : entity) : prog unit := CreateEntity e await.
Definition updateEntity (e : entity) : prog unit := UpdateEntity e await.
Definition newDateISO : prog string := NowISO Ret.
Definition console (m : log_msg) : prog unit := Log m (Ret ()).

(** ** The source functions *)

Definition THRESHOLD : Z := 1000.

(** [new Date().toISOString().slice(0, 7)] *)
Definition getCurrentMonthString : prog string :=
  now ← newDateISO; mret (substring 0 7 now).

(** [return !entity?.ActionDone && sumToken > THRESHOLD;] *)
Definition shouldSendAlert (entity : option entity) (sumToken : Z) : bool :=
  negb (match entity with Some e => ActionDone e | None => false end)
  && (THRESHOLD <? sumToken)%Z.

(** [sendMail]: [client.beginSend] then [poller.pollUntilDone()], returning
    [result.status]; the e-mail service call is one request. *)
Definition sendMail (deploymentName : string) (sumToken : Z) : prog string :=
  SendEmail deploymentName sumToken await.

(** [entity.ActionDone = b; entity.LastUpdated = now;] *)
Definition set_ActionDone (b : bool) (now : string) (e : entity) : entity :=
  mkEntity (partitionKey e) (rowKey e) (SumToken e) b now.

(** [entity.SumToken = s; entity.LastUpdated = now;] *)
Definition set_SumToken (s : Z) (now : string) (e : entity) : entity :=
  mkEntity (partitionKey e) (rowKey e) s (ActionDone e) now.

(** The body of the outer [try] of [evaluateTokenUsageForAlert]; the
    in-place mutations of [entity] are threaded as the returned value. *)
Definition evaluate_body (deploymentName : string) (sumToken : Z)
    (month : string) : prog unit :=
  let rowKey := (deploymentName ++ "-" ++ month)%string in
  entity ← try_catch (getEntity "DeploymentType" rowKey)
    (fun error =>
       if decide (statusCode error = Some 404) then
         now ← newDateISO;
         let entity := {| partitionKey := "DeploymentType"; rowKey := rowKey;
                          SumToken := sumToken; ActionDone := false;
                          LastUpdated := now |} in
         _ ← createEntity entity;
         mret entity
       else Throw error);
  entity ← (if shouldSendAlert (Some entity) sumToken then
              result ← sendMail deploymentName sumToken;
              if decide (result = "Succeeded") then
                _ ← console (LogAlertSent deploymentName);
                now ← newDateISO;
                let entity := set_ActionDone true now entity in
                _ ← updateEntity entity;
                mret entity
              else Throw (MsgErr "Failed to send mail")
            else
              _ ← console (LogNoAlert deploymentName);
              mret entity);
  if decide (SumToken entity < sumToken)%Z then
    now ← newDateISO;
    let entity := set_SumToken sumToken now entity in
    updateEntity entity
  else mret ().

(** [evaluateTokenUsageForAlert]: the outer [catch] logs and swallows. *)
Definition evaluateTokenUsageForAlert (deploymentName : string) (sumToken : Z)
    (month : string) : prog unit :=
  try_catch (evaluate_body deploymentName sumToken month)
    (fun error => console (LogErrorProcessing deploymentName error)).

(** [error.response?.status || 500] and [error.response?.data || error.message]:
    an axios error has [response.status] and [response.data]; a [RestError]
    has [response.status] (its [statusCode]) but no [response.data]; a plain
    [Error] has no [response]. *)
Definition response_of_error (error : err) : http_response :=
  match error with
  | HttpErr s d =>
      {| status := if decide (s = 0) then 500 else s;
         body := if decide (d = "") then message error else d |}
  | StatusErr c =>
      {| status := if decide (c = 0) then 500 else c; body := message error |}
  | MsgErr _ => {| status := 500; body := message error |}
  end.

(** The per-deployment callback of [timeseries.map]:
    [data.reduce((sum, d) => sum + d.total, 0)] then the reconciliation. *)
Definition process_deployment (month : string) (deployment : deployment) : prog unit :=
  let sumToken := foldl Z.add 0 (data deployment) in
  evaluateTokenUsageForAlert (metadatavalue deployment) sumToken month.

(** [await Promise.all(timeseries.map(...))]: the callbacks for distinct
    deployments touch distinct rows; they are run one after the other. *)
Fixpoint all_deployments (month : string) (ts : list deployment) : prog unit :=
  match ts with
  | [] => mret ()
  | d :: ts' => _ ← process_deployment month d; all_deployments month ts'
  end.

(** [httpTrigger]; the metrics query (URL, timespan) is one request. *)
Definition httpTrigger : prog http_response :=
  try_catch
    (accessToken ← GetToken await;
     timeseries ← GetMetrics await;
     month ← getCurrentMonthString;
     _ ← all_deployments month timeseries;
     mret {| status := 200; body := "Success" |})
    (fun error => _ ← console (LogError error); mret (response_of_error error)).

(** ** Semantics of the requests *)

Abbreviation store := (gmap (string * string) entity).

Definition key_of (e : entity) : string * string := (partitionKey e, rowKey e).

(** Requests performed, most recent first. *)
Inductive event :=
  | EvGet (pk rk : string) (r : result entity)
  | EvCreate (e : entity) (r : result unit)
  | EvUpdate (e : entity) (r : result unit)
  | EvEmail (deploymentName : string) (sumToken : Z) (r : result string)
  | EvToken
  | EvMetrics
  | EvLog (m : log_msg).

(** The outside world: [env_other n] are the writes of other, overlapping
    invocations that land just before this invocation's [n]-th store call;
    [env_fault n] a transient failure (its status code) of that call;
    [env_email] the status of the e-mail service, [env_now] the clock. *)
Record env := mkEnv {
  env_other : nat -> store -> store;
  env_fault : nat -> option Z;
  env_email : string -> Z -> result string;
  env_now : nat -> string;
  env_token : result string;
  env_metrics : result (list deployment)
}.

Record world := mkWorld {
  w_store : store;
  w_ops : nat;
  w_clock : nat;
  w_trace : list event
}.

(** Table Storage on its own: [getEntity], [createEntity] and
    [updateEntity] (mode "Merge": the entity carries every property, so the
    row becomes the entity; no etag is passed, so the write is unconditional). *)
Definition table_get (pk rk : string) (st : store) : result entity * store :=
  match st !! (pk, rk) with
  | Some e => (Ok e, st)
  | None => (Err (StatusErr 404), st)
  end.

Definition table_create (e : entity) (st : store) : result unit * store :=
  match st !! key_of e with
  | Some _ => (Err (StatusErr 409), st)
  | None => (Ok (), <[key_of e := e]> st)
  end.

Definition table_update (e : entity) (st : store) : result unit * store :=
  match st !! key_of e with
  | Some _ => (Ok (), <[key_of e := e]> st)
  | None => (Err (StatusErr 404), st)
  end.

Definition store_call {X} (E : env) (w : world) (op : store -> result X * store)
    (ev : result X -> event) : result X * world :=
  let st := env_other E (w_ops w) (w_store w) in
  let '(r, st') := match env_fault E (w_ops w) with
                   | Some c => (Err (StatusErr c), st)
                   | None => op st
                   end in
  (r, {| w_store := st'; w_ops := S (w_ops w); w_clock := w_clock w;
         w_trace := ev r :: w_trace w |}).

Definition push (ev : event) (w : world) : world :=
  {| w_store := w_store w; w_ops := w_ops w; w_clock := w_clock w;
     w_trace := ev :: w_trace w |}.

Definition tick (w : world) : world :=
  {| w_store := w_store w; w_ops := w_ops w; w_clock := S (w_clock w);
     w_trace := w_trace w |}.

Fixpoint run {A} (E : env) (p : prog A) (w : world) : result A * world :=
  match p with
  | Ret a => (Ok a, w)
  | Throw e => (Err e, w)
  | GetEntity pk rk k =>
      let '(r, w') := store_call E w (table_get pk rk) (EvGet pk rk) in
      run E (k r) w'
  | CreateEntity e k =>
      let '(r, w') := store_call E w (table_create e) (EvCreate e) in
      run E (k r) w'
  | UpdateEntity e k =>
      let '(r, w') := store_call E w (table_update e) (EvUpdate e) in
      run E (k r) w'
  | SendEmail n s k =>
      let r := env_email E n s in run E (k r) (push (EvEmail n s r) w)
  | GetToken k => run E (k (env_token E)) (push EvToken w)
  | GetMetrics k => run E (k (env_metrics E)) (push EvMetrics w)
  | NowISO k => run E (k (env_now E (w_clock w))) (tick w)
  | Log m k => run E k (push (EvLog m) w)
  end.

(** ** Vocabulary of the claims *)

Definition row_key (deploymentName month : string) : string * string :=
  ("DeploymentType", (deploymentName ++ "-" ++ month)%string).

Definition reconcile (E : env) (deploymentName : string) (sumToken : Z)
    (month : string) (w : world) : result unit * world :=
  run E (evaluateTokenUsageForAlert deploymentName sumToken month) w.

(** No other invocation writes the table while this one runs. *)
Definition alone (E : env) : Prop := forall n st, env_other E n st = st.

(** The table answers every call without a transient failure. *)
Definition reliable (E : env) : Prop := forall n, env_fault E n = None.

Definition is_email (ev : event) : bool :=
  match ev with EvEmail _ _ _ => true | _ => false end.

Definition is_write (ev : event) : bool :=
  match ev with EvCreate _ _ | EvUpdate _ _ => true | _ => false end.

Definition is_email_for (n : string) (ev : event) : bool :=
  match ev with EvEmail n' _ _ => bool_decide (n' = n) | _ => false end.

Definition is_error_log (ev : event) : bool :=
  match ev with EvLog (LogErrorProcessing _ _) => true | _ => false end.

(** The new part of the trace of a run started in [w]. *)
Definition new_events (w w' : world) : list event :=
  take (length (w_trace w') - length (w_trace w)) (w_trace w').

Definition emails (w w' : world) : nat :=
  length (filter (fun ev => is_email ev = true) (new_events w w')).

Definition init_world (st : store) : world :=
  {| w_store := st; w_ops := 0; w_clock := 0; w_trace := [] |}.

Definition honest_env (email_status : string) : env :=
  {| env_other := fun _ st => st; env_fault := fun _ => None;
     env_email := fun _ _ => Ok email_status;
     env_now := fun n => ("2024-10-0" ++ String (Ascii.ascii_of_nat (48 + n)) "T00:00:00.000Z")%string;
     env_token := Ok "token"; env_metrics := Ok [] |}.

(** Every row is stored under its own [(partitionKey, rowKey)]. *)
Definition wf_store (st : store) : Prop :=
  forall k e, st !! k = Some e -> key_of e = k.

(** The reconciliations of [ts], one after the other, from world [w]. *)
Definition reconcile_all (E : env) (month : string) (ts : list deployment)
    (w : world) : world :=
  foldl (fun w d => snd (reconcile E (metadatavalue d) (foldl Z.add 0 (data d)) month w))
    w ts.

(** A row of [gpt4dev] for 2024-10 with 500 tokens and no alert yet. *)
Definition row500 : entity :=
  mkEntity "DeploymentType" "gpt4dev-2024-10" 500 false "2024-10-01T00:00:00.000Z".

Definition store500 : store := {[ row_key "gpt4dev" "2024-10" := row500 ]}.

(** Another invocation creates the row between our [getEntity] (call 0)
    and our [createEntity] (call 1). *)
Definition racing_create_env : env :=
  {| env_other := fun n st =>
       if decide (n = 1%nat) then <[row_key "gpt4dev" "2024-10" := row500]> st else st;
     env_fault := fun _ => None;
     env_email := fun _ _ => Ok "Succeeded";
     env_now := env_now (honest_env "Succeeded");
     env_token := Ok "token"; env_metrics := Ok [] |}.

(** Another invocation sends the alert and stores [ActionDone = true] with
    1500 tokens between our [getEntity] (call 0) and our [updateEntity]
    (call 1). *)
Definition racing_alert_env : env :=
  {| env_other := fun n st =>
       if decide (n = 1%nat) then
         <[row_key "gpt4dev" "2024-10" :=
             mkEntity "DeploymentType" "gpt4dev-2024-10" 1500 true
               "2024-10-01T00:00:05.000Z"]> st
       else st;
     env_fault := fun _ => None;
     env_email := fun _ _ => Ok "Succeeded";
     env_now := env_now (honest_env "Succeeded");
     env_token := Ok "token"; env_metrics := Ok [] |}.

(** Two deployments; the table fails the first call (the first
    deployment's read), and the second deployment is still reconciled. *)
Definition two_deployments_env : env :=
  {| env_other := fun _ st => st;
     env_fault := fun n => if decide (n = 0%nat) then Some 503 else None;
     env_email := fun _ _ => Ok "Succeeded";
     env_now := env_now (honest_env "Succeeded");
     env_token := Ok "token";
     env_metrics := Ok [mkDeployment "gpt4dev" [700; 800]; mkDeployment "gpt35" [300]] |}.

(** An invocation whose credential cannot produce a token. *)
Definition no_token_env : env :=
  {| env_other := fun _ st => st; env_fault := fun _ => None;
     env_email := fun _ _ => Ok "Succeeded";
     env_now := env_now (honest_env "Succeeded");
     env_token := Err (MsgErr "CredentialUnavailableError");
     env_metrics := Ok [mkDeployment "gpt4dev" [1500]] |}.

(** An invocation whose metrics query is refused with HTTP 403. *)
Definition metrics_denied_env : env :=
  {| env_other := fun _ st => st; env_fault := fun _ => None;
     env_email := fun _ _ => Ok "Succeeded";
     env_now := env_now (honest_env "Succeeded");
     env_token := Ok "token";
     env_metrics := Err (HttpErr 403 "AuthorizationFailed") |}.

(** Two deployments, one of them over the threshold; everything succeeds. *)
Definition alert_env : env :=
  {| env_other := fun _ st => st; env_fault := fun _ => None;
     env_email := fun _ _ => Ok "Succeeded";
     env_now := env_now (honest_env "Succeeded");
     env_token := Ok "token";
     env_metrics := Ok [mkDeployment "gpt4dev" [700; 800]; mkDeployment "gpt35" [300]] |}.

(** ** Generic facts about the interpreter *)

Lemma let_pair_elim {A B} (x : A * B) (a : A) (b : B) (Q : A -> B -> Prop) :
  x = (a, b) -> (let '(a', b') := x in Q a' b') -> Q a b.
Proof. by intros ->. Qed.

Lemma new_events_app (w w' : world) (l : list event) :
  w_trace w' = l ++ w_trace w -> new_events w w' = l.
Proof.
  intros H. unfold new_events. rewrite H, length_app.
  replace (length l + length (w_trace w) - length (w_trace w))%nat with (length l) by lia.
  by rewrite take_app_length.
Qed.

Lemma take_length_app_sub (l t : list event) :
  take (length (l ++ t) - length t) (l ++ t) = l.
Proof.
  rewrite length_app.
  replace (length l + length t - length t)%nat with (length l) by lia.
  by rewrite take_app_length.
Qed.

(** The events in front of the suffix [t] of the trace [x]. *)
Ltac prefix_of x t :=
  match x with
  | t => constr:(@nil event)
  | ?a :: ?x' => let l := prefix_of x' t in constr:(a :: l)
  end.

Ltac new_ev :=
  unfold emails, new_events in *; cbn [w_trace w_store push tick] in *;
  repeat match goal with
  | |- context [take (length ?x - length ?t) ?x] =>
      let l := prefix_of x t in
      change x with (l ++ t); rewrite (take_length_app_sub l t)
  end; simpl in *.

Ltac split_run :=
  match goal with
  | H : ?st !! ?k = _ |- context [?st !! ?k] => rewrite H
  | H : shouldSendAlert (Some ?e) _ = true, H' : ActionDone ?e = true |- _ =>
      exfalso; unfold shouldSendAlert in H; rewrite H' in H; discriminate
  | |- context [env_fault ?E ?n] => destruct (env_fault E n) eqn:?
  | |- context [?st !! ?k] => destruct (st !! k) eqn:?
  | |- context [decide ?P] => destruct (decide P)
  | |- context [env_email ?E ?a ?b] => destruct (env_email E a b) eqn:?
  | |- context [shouldSendAlert ?x ?y] => destruct (shouldSendAlert x y) eqn:?
  end.

Ltac crush_with tac :=
  unfold reconcile, evaluateTokenUsageForAlert, evaluate_body in *;
  repeat progress (simpl in *;
          unfold store_call, table_get, table_create, table_update, key_of,
            set_ActionDone, set_SumToken in *;
          try tac; simpl in *; rewrite ?lookup_insert_eq, ?lookup_insert in *;
          try (split_run; simplify_eq/=; try (exfalso; congruence)));
  try tac; new_ev.

Ltac crush_run := crush_with fail.

(** Turn a hypothesis [run ... = (r, w')] into the goal's scrutinee. *)
Ltac from_run H :=
  match type of H with
  | _ = (?r, ?w') => pattern r, w'; apply (let_pair_elim _ _ _ _ H); clear H
  end.

Ltac pick_elem :=
  repeat (first [apply list_elem_of_here | apply list_elem_of_further]).

Ltac elem_cases H :=
  revert H; rewrite ?elem_of_cons, ?elem_of_nil; intros H;
  decompose [or] H; simplify_eq; try contradiction.

Ltac pick_exists :=
  repeat (first [apply Exists_cons_hd; reflexivity | apply Exists_cons_tl]).

Ltac no_error_log H :=
  revert H; rewrite ?Forall_cons, ?Forall_nil; intros H;
  decompose [and] H; simpl in *; try discriminate.

Ltac use_env :=
  repeat match goal with
  | H : alone _ |- _ => rewrite !H
  | H : reliable _ |- _ => rewrite !H
  end.


(** A row read from a well-formed table carries its key. *)
Ltac use_wf :=
  repeat match goal with
  | Hwf : wf_store ?st, H : ?st !! ?k = Some ?e |- _ =>
      is_var e;
      let Hk := fresh "Hk" in
      pose proof (Hwf _ _ H) as Hk; destruct e; unfold key_of in Hk; simpl in Hk;
      simplify_eq
  end.

Ltac env_wf := use_env; use_wf.

Lemma wf_store500 : wf_store store500.
Proof.
  intros k e Hk. unfold store500 in Hk.
  apply lookup_singleton_Some in Hk as [<- <-]. reflexivity.
Qed.

Lemma wf_empty : wf_store ∅.
Proof. intros k e Hk. by rewrite lookup_empty in Hk. Qed.

(** ** The alert policy *)

(** C1. [shouldSendAlert] is true exactly when the new usage is above
    [THRESHOLD] and there is no row or its [ActionDone] is false; so it is
    false at or below the threshold, whatever the row, and false for a row
    with [ActionDone = true], whatever the usage. *)
Theorem shouldSendAlert_spec (rec : option entity) (sumToken : Z) :
  (shouldSendAlert rec sumToken = true <->
     (THRESHOLD < sumToken)%Z /\
     match rec with None => True | Some e => ActionDone e = false end) /\
  ((sumToken <= THRESHOLD)%Z -> shouldSendAlert rec sumToken = false) /\
  (forall e, rec = Some e -> ActionDone e = true -> shouldSendAlert rec sumToken = false).
Proof.
  unfold shouldSendAlert.
  destruct (Z.ltb_spec THRESHOLD sumToken);
    [|rewrite andb_false_r; intuition (try congruence; try lia)].
  rewrite andb_true_r. destruct rec as [e|]; simpl.
  - destruct (ActionDone e) eqn:Ha; simpl; intuition (try congruence; try lia).
  - intuition (try congruence; try lia).
Qed.

Lemma shouldSendAlert_spec_witness :
  shouldSendAlert None 1000 = false /\ shouldSendAlert None 1001 = true /\
  shouldSendAlert (Some (set_ActionDone true "" row500)) 2000 = false.
Proof.
  split; [|split].
  - apply (proj1 (proj2 (shouldSendAlert_spec None 1000))). unfold THRESHOLD; lia.
  - apply (proj2 (proj1 (shouldSendAlert_spec None 1001))). split; [unfold THRESHOLD; lia | exact I].
  - apply (proj2 (proj2 (shouldSendAlert_spec (Some (set_ActionDone true "" row500)) 2000))
             (set_ActionDone true "" row500)); reflexivity.
Defined.

Lemma shouldSendAlert_flagged (e : entity) (sumToken : Z) :
  shouldSendAlert (Some e) sumToken = true -> ActionDone e = false.
Proof. unfold shouldSendAlert. destruct (ActionDone e); simpl; congruence. Qed.

(** ** Scenario A *)

(** C9. No row for (deployment, month), 1500 tokens, [THRESHOLD] = 1000, a
    table without failures and no overlapping writer, and an e-mail service
    that answers "Succeeded": the row is created with [SumToken] = 1500, one
    e-mail is sent, and the row ends with [ActionDone = true]. *)
Theorem scenario_A (E : env) (name month : string) (w : world) r w' :
  alone E -> reliable E -> env_email E name 1500 = Ok "Succeeded" ->
  w_store w !! row_key name month = None ->
  reconcile E name 1500 month w = (r, w') ->
  r = Ok () /\ emails w w' = 1%nat /\
  (exists e, EvCreate e (Ok ()) ∈ new_events w w' /\ SumToken e = 1500 /\
     key_of e = row_key name month) /\
  (exists e, w_store w' !! row_key name month = Some e /\ ActionDone e = true /\
     SumToken e = 1500).
Proof.
  intros HA HR HM Hl Hrun. from_run Hrun. unfold row_key in *. crush_with use_env.
  repeat split; eauto.
  eexists; split; [pick_elem | done].
Qed.

Lemma scenario_A_witness :
  let '(r, w') := reconcile (honest_env "Succeeded") "gpt4dev" 1500 "2024-10" (init_world ∅) in
  r = Ok () /\ emails (init_world ∅) w' = 1%nat.
Proof.
  assert (HA : alone (honest_env "Succeeded")) by (intros n st; reflexivity).
  assert (HR : reliable (honest_env "Succeeded")) by (intros n; reflexivity).
  assert (Hm : env_email (honest_env "Succeeded") "gpt4dev" 1500 = Ok "Succeeded") by reflexivity.
  assert (Hl : w_store (init_world ∅) !! row_key "gpt4dev" "2024-10" = None) by reflexivity.
  destruct (reconcile (honest_env "Succeeded") "gpt4dev" 1500 "2024-10" (init_world ∅))
    as [r w'] eqn:Hr.
  destruct (scenario_A _ _ _ _ _ _ HA HR Hm Hl Hr) as [H1 [H2 _]].
  split; assumption.
Defined.

(** ** Frame of a reconciliation that changes nothing *)

(** C10. The row exists (the table answers the read with it), the policy
    says no alert, and the new usage does not exceed the stored [SumToken]:
    the reconciliation performs no create and no update, and the table,
    [LastUpdated] included, stays as the read saw it. *)
Theorem no_write_when_nothing_changes (E : env) name sum month (w : world) (e : entity) r w' :
  env_fault E (w_ops w) = None ->
  env_other E (w_ops w) (w_store w) !! row_key name month = Some e ->
  shouldSendAlert (Some e) sum = false ->
  (sum <= SumToken e)%Z ->
  reconcile E name sum month w = (r, w') ->
  r = Ok () /\ w_store w' = env_other E (w_ops w) (w_store w) /\
  Forall (fun ev => is_write ev = false) (new_events w w').
Proof.
  intros Hf Hl Hs Hle Hrun. from_run Hrun. unfold row_key in Hl. crush_run.
  all: try lia.
  repeat split; repeat constructor.
Qed.

Lemma no_write_when_nothing_changes_witness :
  let '(r, w') := reconcile (honest_env "Succeeded") "gpt4dev" 400 "2024-10"
                    (init_world store500) in
  w_store w' = store500.
Proof.
  destruct (reconcile (honest_env "Succeeded") "gpt4dev" 400 "2024-10" (init_world store500))
    as [r w'] eqn:Hr.
  refine (proj1 (proj2 (no_write_when_nothing_changes _ _ _ _ _ row500 _ _ _ _ _ _ Hr)));
    try reflexivity.
  vm_compute; congruence.
Defined.

(** ** The usage update and the notifier outcome *)

(** C2, counterexample. Row with 500 tokens and no alert, 1500 new tokens,
    the e-mail service answers "Failed": one e-mail is attempted, and the
    stored [SumToken] stays 500. *)
Lemma usage_not_updated_after_failed_email :
  let '(r, w') := reconcile (honest_env "Failed") "gpt4dev" 1500 "2024-10"
                    (init_world store500) in
  emails (init_world store500) w' = 1%nat /\
  SumToken <$> w_store w' !! row_key "gpt4dev" "2024-10" = Some 500.
Proof. vm_compute. split; reflexivity. Qed.

(** C2, amended. With no overlapping writer, on an existing row: if an
    alert is attempted and the e-mail service answers anything but
    "Succeeded", the table is left exactly as it was (no [SumToken] update);
    if no alert is attempted or the e-mail succeeds, and the table answers
    without failure, [SumToken] becomes the new usage when it exceeds it. *)
Theorem usage_update_follows_alert_step (E : env) name sum month (w : world) (e : entity) r w' :
  alone E -> wf_store (w_store w) ->
  w_store w !! row_key name month = Some e ->
  reconcile E name sum month w = (r, w') ->
  (shouldSendAlert (Some e) sum = true -> env_email E name sum <> Ok "Succeeded" ->
     w_store w' = w_store w) /\
  (reliable E ->
     (shouldSendAlert (Some e) sum = false \/ env_email E name sum = Ok "Succeeded") ->
     SumToken <$> w_store w' !! row_key name month = Some (Z.max (SumToken e) sum)).
Proof.
  intros HA Hwf Hl Hrun. unfold row_key in *.
  split; [intros Hs Hm | intros HR Hc]; from_run Hrun; crush_with env_wf.
  all: try done; try (destruct Hc; congruence); f_equal; lia.
Qed.

Lemma usage_update_follows_alert_step_witness :
  let '(r, w') := reconcile (honest_env "Failed") "gpt4dev" 1500 "2024-10"
                    (init_world store500) in
  w_store w' = store500.
Proof.
  destruct (reconcile (honest_env "Failed") "gpt4dev" 1500 "2024-10" (init_world store500))
    as [r w'] eqn:Hr.
  refine (proj1 (usage_update_follows_alert_step _ _ _ _ _ row500 _ _ _ _ _ Hr) _ _).
  - intros n st; reflexivity.
  - exact wf_store500.
  - reflexivity.
  - reflexivity.
  - vm_compute; congruence.
Defined.

(** ** A failed create *)

(** C3, counterexample. No row, and another invocation creates it between
    our read and our create: the create answers 409, the row is not read
    again, no e-mail is sent, and the failure is logged as an error of this
    deployment. *)
Lemma create_conflict_not_reread :
  let '(r, w') := reconcile racing_create_env "gpt4dev" 1500 "2024-10" (init_world ∅) in
  new_events (init_world ∅) w' =
    [EvLog (LogErrorProcessing "gpt4dev" (StatusErr 409));
     EvCreate (mkEntity "DeploymentType" "gpt4dev-2024-10" 1500 false
                 (env_now racing_create_env 0)) (Err (StatusErr 409));
     EvGet "DeploymentType" "gpt4dev-2024-10" (Err (StatusErr 404))].
Proof. vm_compute. reflexivity. Qed.

(** C3, amended. Whatever the environment, a create that fails (a 409
    conflict with a concurrent creator or any other error) ends the
    reconciliation of this deployment: after the read (answered 404) and the
    create, the only further step is the logged error; there is no second
    read, no e-mail and no update, and the error does not propagate. *)
Theorem create_failure_aborts (E : env) name sum month (w : world) r w' e c :
  reconcile E name sum month w = (r, w') ->
  EvCreate e (Err c) ∈ new_events w w' ->
  r = Ok () /\
  new_events w w' =
    [EvLog (LogErrorProcessing name c); EvCreate e (Err c);
     EvGet "DeploymentType" (name ++ "-" ++ month)%string (Err (StatusErr 404))].
Proof.
  intros Hrun. from_run Hrun. crush_run.
  all: intros Hin; elem_cases Hin; done.
Qed.

Lemma create_failure_aborts_witness :
  let '(r, w') := reconcile racing_create_env "gpt4dev" 1500 "2024-10" (init_world ∅) in
  r = Ok ().
Proof.
  destruct (reconcile racing_create_env "gpt4dev" 1500 "2024-10" (init_world ∅))
    as [r w'] eqn:Hr.
  refine (proj1 (create_failure_aborts _ _ _ _ _ _ _
           (mkEntity "DeploymentType" "gpt4dev-2024-10" 1500 false
              (env_now racing_create_env 0)) (StatusErr 409) Hr _)).
  vm_compute in Hr. injection Hr as <- <-. vm_compute. pick_elem.
Defined.


(** ** Marking the alert as sent *)

(** C4. With no overlapping writer: the row's [ActionDone] becomes true in
    a reconciliation only if it already was or the e-mail service answered
    "Succeeded" to this reconciliation; and if the e-mail service answers
    anything else, the reconciliation logs an error for this deployment and
    the row is left with [ActionDone = false]. *)
Theorem alert_flag_only_after_delivery (E : env) name sum month (w : world) r w' :
  alone E -> wf_store (w_store w) ->
  reconcile E name sum month w = (r, w') ->
  (ActionDone <$> w_store w' !! row_key name month = Some true ->
     ActionDone <$> w_store w !! row_key name month = Some true \/
     EvEmail name sum (Ok "Succeeded") ∈ new_events w w') /\
  (forall res, EvEmail name sum res ∈ new_events w w' -> res <> Ok "Succeeded" ->
     Exists (fun ev => is_error_log ev = true) (new_events w w') /\
     ActionDone <$> w_store w' !! row_key name month = Some false).
Proof.
  intros HA Hwf Hrun. unfold row_key in *.
  split; from_run Hrun; crush_with env_wf.
  all: first
    [ intros Hx; first [ solve [left; exact Hx] | solve [right; pick_elem] | discriminate ]
    | let res := fresh "res" in let Hin := fresh "Hin" in let Hne := fresh "Hne" in
      intros res Hin Hne; elem_cases Hin; try congruence ].
  all: split; [pick_exists | try reflexivity].
  all: f_equal; match goal with
                H : shouldSendAlert (Some _) _ = true |- _ => exact (shouldSendAlert_flagged _ _ H)
                end.
Qed.

Lemma alert_flag_only_after_delivery_witness :
  let '(r, w') := reconcile (honest_env "Failed") "gpt4dev" 1500 "2024-10"
                    (init_world store500) in
  ActionDone <$> w_store w' !! row_key "gpt4dev" "2024-10" = Some false.
Proof.
  destruct (reconcile (honest_env "Failed") "gpt4dev" 1500 "2024-10" (init_world store500))
    as [r w'] eqn:Hr.
  refine (proj2 (proj2 (alert_flag_only_after_delivery (honest_env "Failed") "gpt4dev" 1500 "2024-10"
                  (init_world store500) r w' _ wf_store500 Hr)
                  (Ok "Failed") _ _)).
  - intros n st; reflexivity.
  - vm_compute in Hr. injection Hr as <- <-. vm_compute. pick_elem.
  - congruence.
Defined.

(** ** The usage high-water mark *)

(** C5, counterexample. Row with 500 tokens, 1500 new tokens, the e-mail
    service answers "Failed": the row keeps 500, not max(500, 1500). *)
Lemma usage_max_fails_after_failed_email :
  let '(r, w') := reconcile (honest_env "Failed") "gpt4dev" 1500 "2024-10"
                    (init_world store500) in
  SumToken <$> w_store w' !! row_key "gpt4dev" "2024-10" = Some 500 /\
  Z.max 500 1500 = 1500.
Proof. vm_compute. split; reflexivity. Qed.

(** C5, amended. With no overlapping writer, on a table whose rows sit
    under their own keys: a reconciliation never lowers the stored
    [SumToken]; if it runs to completion (no error logged), the row's
    [SumToken] is max(previous, new), or the new usage when there was no
    row; and if it fails (an error is logged) on an existing row, the row's
    [SumToken] keeps exactly its previous value. *)
Theorem usage_high_water_mark (E : env) name sum month (w : world) r w' :
  alone E -> wf_store (w_store w) ->
  reconcile E name sum month w = (r, w') ->
  (forall e, w_store w !! row_key name month = Some e ->
     exists e', w_store w' !! row_key name month = Some e' /\ (SumToken e <= SumToken e')%Z) /\
  (Forall (fun ev => is_error_log ev = false) (new_events w w') ->
     SumToken <$> w_store w' !! row_key name month =
       Some (match w_store w !! row_key name month with
             | Some e => Z.max (SumToken e) sum
             | None => sum
             end)) /\
  (forall e, w_store w !! row_key name month = Some e ->
     Exists (fun ev => is_error_log ev = true) (new_events w w') ->
     SumToken <$> w_store w' !! row_key name month = Some (SumToken e)).
Proof.
  intros HA Hwf Hrun. unfold row_key in *.
  split; [|split]; [intros e0 Hl0| |intros e0 Hl0]; from_run Hrun; crush_with env_wf.
  all: first
    [ eexists; split; [reflexivity | simpl; lia]
    | let Hno := fresh "Hno" in intros Hno; no_error_log Hno; try reflexivity; f_equal; lia
    | let Hx := fresh "Hx" in
      intros Hx; revert Hx; rewrite ?Exists_cons, ?Exists_nil; simpl; intros Hx;
      decompose [or] Hx; try discriminate; try contradiction; reflexivity ].
Qed.

Lemma usage_high_water_mark_witness :
  let '(r, w') := reconcile (honest_env "Succeeded") "gpt4dev" 1500 "2024-10"
                    (init_world store500) in
  exists e', w_store w' !! row_key "gpt4dev" "2024-10" = Some e' /\ (500 <= SumToken e')%Z.
Proof.
  destruct (reconcile (honest_env "Succeeded") "gpt4dev" 1500 "2024-10" (init_world store500))
    as [r w'] eqn:Hr.
  refine (proj1 (usage_high_water_mark (honest_env "Succeeded") "gpt4dev" 1500 "2024-10"
                   (init_world store500) r w' _ wf_store500 Hr) row500 _).
  - intros n st; reflexivity.
  - reflexivity.
Defined.

(** ** Idempotence and the alert flag *)

(** A row with [ActionDone = true] and no overlapping writer: the
    reconciliation sends no e-mail and the row keeps [ActionDone = true]. *)
Lemma flagged_row_stays_flagged (E : env) name sum month (w : world) r w' :
  alone E ->
  ActionDone <$> w_store w !! row_key name month = Some true ->
  reconcile E name sum month w = (r, w') ->
  emails w w' = 0%nat /\ ActionDone <$> w_store w' !! row_key name month = Some true.
Proof.
  intros HA Hl Hrun. unfold row_key in *.
  destruct (w_store w !! _) as [e0|] eqn:He0; [|discriminate].
  simpl in Hl. injection Hl as Hl.
  from_run Hrun. crush_with use_env.
  all: split; [reflexivity | by rewrite Hl].
Qed.

(** C6. Two reconciliations in a row with the same usage and no
    overlapping writer: if the first leaves the row with
    [ActionDone = true] (the alert was delivered and recorded), the second
    sends no e-mail and the row still has [ActionDone = true]. *)
Theorem no_second_alert (E1 E2 : env) name sum month (w : world) r1 w1 r2 w2 :
  alone E1 -> alone E2 ->
  reconcile E1 name sum month w = (r1, w1) ->
  ActionDone <$> w_store w1 !! row_key name month = Some true ->
  reconcile E2 name sum month w1 = (r2, w2) ->
  emails w1 w2 = 0%nat /\ ActionDone <$> w_store w2 !! row_key name month = Some true.
Proof.
  intros _ HA2 _ Hflag Hrun2.
  exact (flagged_row_stays_flagged E2 name sum month w1 r2 w2 HA2 Hflag Hrun2).
Qed.

Lemma no_second_alert_witness :
  let '(r1, w1) := reconcile (honest_env "Succeeded") "gpt4dev" 1500 "2024-10" (init_world ∅) in
  let '(r2, w2) := reconcile (honest_env "Succeeded") "gpt4dev" 1500 "2024-10" w1 in
  emails w1 w2 = 0%nat.
Proof.
  destruct (reconcile (honest_env "Succeeded") "gpt4dev" 1500 "2024-10" (init_world ∅))
    as [r1 w1] eqn:Hr1.
  destruct (reconcile (honest_env "Succeeded") "gpt4dev" 1500 "2024-10" w1)
    as [r2 w2] eqn:Hr2.
  refine (proj1 (no_second_alert (honest_env "Succeeded") (honest_env "Succeeded")
                   "gpt4dev" 1500 "2024-10" (init_world ∅) r1 w1 r2 w2 _ _ Hr1 _ Hr2)).
  - intros n st; reflexivity.
  - intros n st; reflexivity.
  - vm_compute in Hr1. injection Hr1 as <- <-. reflexivity.
Defined.

(** C7, counterexample. Row with 500 tokens and no alert; this
    reconciliation sees 800 tokens. Between its read and its update an
    overlapping invocation records a delivered alert ([ActionDone = true],
    1500 tokens); the update, unconditional, writes back the stale read with
    [ActionDone = false] and 800 tokens. *)
Lemma stale_write_resets_alert :
  let '(r, w') := reconcile racing_alert_env "gpt4dev" 800 "2024-10" (init_world store500) in
  ActionDone <$> env_other racing_alert_env 1 store500 !! row_key "gpt4dev" "2024-10" = Some true /\
  ActionDone <$> w_store w' !! row_key "gpt4dev" "2024-10" = Some false /\
  EvUpdate (set_SumToken 800 (env_now racing_alert_env 0) row500) (Ok ()) ∈
    new_events (init_world store500) w'.
Proof. vm_compute. split; [reflexivity | split; [reflexivity | pick_elem]]. Qed.

(** C7, amended. With no overlapping writer, a reconciliation never turns
    a row's [ActionDone] from true to false, for any row of a well-formed
    table: its writes carry the [ActionDone] it read, or true. *)
Theorem alert_flag_never_reset (E : env) name sum month (w : world) r w' k :
  alone E -> wf_store (w_store w) ->
  reconcile E name sum month w = (r, w') ->
  ActionDone <$> w_store w !! k = Some true ->
  ActionDone <$> w_store w' !! k = Some true.
Proof.
  intros HA Hwf Hrun Hk.
  destruct (w_store w !! k) as [ek|] eqn:Hek; [|discriminate].
  simpl in Hk. injection Hk as Hk.
  from_run Hrun. crush_with env_wf.
  all: reflexivity.
Qed.

Lemma alert_flag_never_reset_witness :
  let st := {[ row_key "gpt4dev" "2024-10" := set_ActionDone true "" row500 ]} in
  let '(r, w') := reconcile (honest_env "Succeeded") "gpt4dev" 800 "2024-10" (init_world st) in
  ActionDone <$> w_store w' !! row_key "gpt4dev" "2024-10" = Some true.
Proof.
  intros st.
  destruct (reconcile (honest_env "Succeeded") "gpt4dev" 800 "2024-10" (init_world st))
    as [r w'] eqn:Hr.
  refine (alert_flag_never_reset _ _ _ _ (init_world st) r w' _ _ _ Hr _).
  - intros n st'; reflexivity.
  - intros k e Hk. simpl in Hk. unfold st in Hk.
    apply lookup_singleton_Some in Hk as [<- <-]. reflexivity.
  - reflexivity.
Defined.

(** ** The invocation *)

Lemma run_bind {A B} (E : env) (p : prog A) (f : A -> prog B) (w : world) :
  run E (prog_bind p f) w =
  let '(r, w') := run E p w in
  match r with Ok a => run E (f a) w' | Err e => (Err e, w') end.
Proof.
  revert w. induction p as [a|e|pk rk k IH|e k IH|e k IH|n s k IH|k IH|k IH|k IH|m k IH];
    intros w; simpl; try done.
  all: try (destruct (store_call _ _ _ _) as [r0 w0]; apply IH).
  all: apply IH.
Qed.

Lemma run_try_catch {A} (E : env) (p : prog A) (h : err -> prog A) (w : world) :
  run E (try_catch p h) w =
  let '(r, w') := run E p w in
  match r with Ok a => (Ok a, w') | Err e => run E (h e) w' end.
Proof.
  revert w. induction p as [a|e|pk rk k IH|e k IH|e k IH|n s k IH|k IH|k IH|k IH|m k IH];
    intros w; simpl; try done.
  all: try (destruct (store_call _ _ _ _) as [r0 w0]; apply IH).
  all: apply IH.
Qed.

(** [evaluateTokenUsageForAlert] always resolves: its outer [catch]
    swallows every error. *)
Lemma reconcile_resolves (E : env) name sum month (w : world) :
  fst (reconcile E name sum month w) = Ok ().
Proof.
  unfold reconcile, evaluateTokenUsageForAlert. rewrite run_try_catch.
  destruct (run E (evaluate_body name sum month) w) as [[[]|e] w0]; reflexivity.
Qed.

Lemma all_deployments_run (E : env) month (ts : list deployment) (w : world) :
  run E (all_deployments month ts) w = (Ok (), reconcile_all E month ts w).
Proof.
  revert w. induction ts as [|d ts IH]; intros w; [reflexivity|].
  change (all_deployments month (d :: ts)) with
    (prog_bind (process_deployment month d) (fun _ => all_deployments month ts)).
  rewrite run_bind.
  unfold process_deployment. cbv zeta.
  pose proof (reconcile_resolves E (metadatavalue d) (foldl Z.add 0 (data d)) month w) as Hok.
  unfold reconcile in Hok |- *.
  destruct (run E _ w) as [r0 w0] eqn:Hr. simpl in Hok. subst r0.
  rewrite IH.
  change (reconcile_all E month (d :: ts) w) with
    (reconcile_all E month ts (snd (reconcile E (metadatavalue d) (foldl Z.add 0 (data d)) month w))).
  unfold reconcile. by rewrite Hr.
Qed.

(** C8. Once the metrics are fetched, every deployment is reconciled in
    turn, each on the world the previous one left, whatever failed in the
    others: the final world is exactly the sequence of the reconciliations,
    and the invocation answers 200 with body "Success". *)
Theorem per_deployment_isolation (E : env) (w : world) tok ts r w' :
  env_token E = Ok tok -> env_metrics E = Ok ts ->
  run E httpTrigger w = (r, w') ->
  r = Ok {| status := 200; body := "Success" |} /\
  w' = reconcile_all E (substring 0 7 (env_now E (w_clock w))) ts
         (tick (push EvMetrics (push EvToken w))).
Proof.
  intros Ht Hm Hrun. unfold httpTrigger in Hrun. rewrite run_try_catch in Hrun.
  simpl in Hrun. rewrite Ht in Hrun. simpl in Hrun. rewrite Hm in Hrun. simpl in Hrun.
  unfold mbind, prog_mbind in Hrun. rewrite run_bind, all_deployments_run in Hrun. simpl in Hrun.
  injection Hrun as <- <-. split; reflexivity.
Qed.

Lemma per_deployment_isolation_witness :
  let '(r, w') := run two_deployments_env httpTrigger (init_world ∅) in
  r = Ok {| status := 200; body := "Success" |}.
Proof.
  destruct (run two_deployments_env httpTrigger (init_world ∅)) as [r w'] eqn:Hr.
  exact (proj1 (per_deployment_isolation two_deployments_env (init_world ∅) "token"
    [mkDeployment "gpt4dev" [700; 800]; mkDeployment "gpt35" [300]] r w' eq_refl eq_refl Hr)).
Defined.

(** ** Traces *)

Lemma run_trace_extends {A} (E : env) (p : prog A) (w : world) :
  exists l, w_trace (snd (run E p w)) = l ++ w_trace w.
Proof.
  revert w. induction p as [a|e|pk rk k IH|e k IH|e k IH|n s k IH|k IH|k IH|k IH|m k IH];
    intros w; simpl.
  1,2: exists []; reflexivity.
  1-3: unfold store_call;
       destruct (match env_fault E (w_ops w) with Some c => _ | None => _ end) as [r0 st0];
       simpl.
  all: match goal with
       | |- context [run _ (?k ?x) ?w0] => destruct (IH x w0) as [l Hl]
       | |- context [run _ ?k ?w0] => destruct (IH w0) as [l Hl]
       end; rewrite Hl;
       first [exists l; reflexivity | eexists (l ++ [_]); rewrite <- app_assoc; reflexivity].
Qed.

Lemma run_new_events {A} (E : env) (p : prog A) (w : world) r w' :
  run E p w = (r, w') -> w_trace w' = new_events w w' ++ w_trace w.
Proof.
  intros H. destruct (run_trace_extends E p w) as [l Hl]. rewrite H in Hl. simpl in Hl.
  rewrite (new_events_app _ _ _ Hl). exact Hl.
Qed.

Lemma reconcile_email_facts (E : env) name sum month (w : world) r w' :
  reconcile E name sum month w = (r, w') ->
  (emails w w' <= 1)%nat /\
  (forall n s x, EvEmail n s x ∈ new_events w w' -> n = name /\ s = sum /\ (THRESHOLD < s)%Z).
Proof.
  intros Hrun. from_run Hrun. crush_run.
  all: split; [lia | intros ? ? ? Hin; elem_cases Hin].
  all: repeat split; try reflexivity.
  all: match goal with H : shouldSendAlert _ _ = true |- _ =>
         unfold shouldSendAlert in H; apply andb_true_iff in H as [_ H];
         apply Z.ltb_lt in H; exact H end.
Qed.

Lemma filter_length_le {A} (P Q : A -> Prop) `{forall x, Decision (P x)}
    `{forall x, Decision (Q x)} (l : list A) :
  (forall x, x ∈ l -> P x -> Q x) -> (length (filter P l) <= length (filter Q l))%nat.
Proof.
  induction l as [|a l IH]; intros HPQ; [simpl; lia|].
  rewrite !filter_cons.
  assert (IH' : (length (filter P l) <= length (filter Q l))%nat)
    by (apply IH; intros x Hx; apply HPQ; by right).
  destruct (decide (P a)) as [Hp|Hp]; destruct (decide (Q a)) as [Hq|Hq]; simpl; try lia.
  exfalso. apply Hq, HPQ; [left|]; done.
Qed.

Lemma reconcile_emails_for (E : env) name sum month (w : world) r w' n :
  reconcile E name sum month w = (r, w') ->
  (length (filter (fun ev => is_email_for n ev = true) (new_events w w')) <=
     if decide (name = n) then 1 else 0)%nat.
Proof.
  intros Hrun. destruct (reconcile_email_facts _ _ _ _ _ _ _ Hrun) as [Hn He].
  destruct (decide (name = n)) as [->|Hne].
  - etransitivity; [|exact Hn]. apply filter_length_le.
    intros [] _ Hx; simpl in Hx; try discriminate. reflexivity.
  - assert (Hf : forall l : list event, filter (fun _ : event => False) l = []).
    { induction l as [|a l IH]; [reflexivity|]. rewrite filter_cons.
      destruct (decide False); [contradiction|exact IH]. }
    transitivity (length (filter (fun _ : event => False) (new_events w w')));
      [|rewrite Hf; simpl; lia].
    apply filter_length_le.
    intros [] Hin Hx; simpl in Hx; try discriminate.
    apply bool_decide_eq_true in Hx. subst n.
    destruct (He _ _ _ Hin) as [-> _]. contradiction.
Qed.

Lemma reconcile_all_emails (E : env) month (ts : list deployment) (w : world) :
  exists l, w_trace (reconcile_all E month ts w) = l ++ w_trace w /\
    (length (filter (fun ev => is_email ev = true) l) <= length ts)%nat /\
    (forall n, length (filter (fun ev => is_email_for n ev = true) l) <=
               length (filter (fun d => metadatavalue d = n) ts))%nat /\
    (forall n s x, EvEmail n s x ∈ l -> exists d, d ∈ ts /\ n = metadatavalue d /\
        s = foldl Z.add 0 (data d) /\ (THRESHOLD < s)%Z).
Proof.
  revert w. induction ts as [|d ts IH]; intros w.
  - exists []. split; [reflexivity|]. split; [simpl; lia|]. split; [intros n; simpl; lia|].
    intros n s x Hin. inversion Hin.
  - change (reconcile_all E month (d :: ts) w) with
      (reconcile_all E month ts
         (snd (reconcile E (metadatavalue d) (foldl Z.add 0 (data d)) month w))).
    destruct (reconcile E (metadatavalue d) (foldl Z.add 0 (data d)) month w)
      as [r1 w1] eqn:H1.
    pose proof (run_new_events _ _ _ _ _ H1) as Ht1.
    destruct (reconcile_email_facts _ _ _ _ _ _ _ H1) as [Hn1 He1].
    pose proof (fun n => reconcile_emails_for _ _ _ _ _ _ _ n H1) as Hf1.
    destruct (IH w1) as (l2 & Ht2 & Hn2 & Hf2 & He2). simpl.
    exists (l2 ++ new_events w w1). split; [rewrite Ht2, Ht1, app_assoc; reflexivity|].
    split; [|split].
    + rewrite filter_app, length_app. unfold emails in Hn1. simpl. lia.
    + intros n. rewrite filter_app, length_app, filter_cons.
      specialize (Hf1 n). specialize (Hf2 n).
      destruct (decide (metadatavalue d = n)); simpl; lia.
    + intros n s x Hin. apply elem_of_app in Hin as [Hin|Hin].
      * destruct (He2 _ _ _ Hin) as (d' & Hd' & Hrest). exists d'. split; [by right|exact Hrest].
      * destruct (He1 _ _ _ Hin) as (-> & -> & Hlt). exists d. split; [left|]; auto.
Qed.

(** The whole invocation: the failure of the token or of the metrics
    query, or the reconciliation of every deployment. *)
Lemma httpTrigger_run (E : env) (w : world) :
  run E httpTrigger w =
  match env_token E with
  | Err e => (Ok (response_of_error e), push (EvLog (LogError e)) (push EvToken w))
  | Ok _ =>
      match env_metrics E with
      | Err e => (Ok (response_of_error e),
                  push (EvLog (LogError e)) (push EvMetrics (push EvToken w)))
      | Ok ts => (Ok {| status := 200; body := "Success" |},
                  reconcile_all E (substring 0 7 (env_now E (w_clock w))) ts
                    (tick (push EvMetrics (push EvToken w))))
      end
  end.
Proof.
  unfold httpTrigger. rewrite run_try_catch. simpl.
  destruct (env_token E) as [tok|e]; simpl; [|reflexivity].
  destruct (env_metrics E) as [ts|e]; simpl; [|reflexivity].
  unfold mbind, prog_mbind. rewrite run_bind, all_deployments_run. reflexivity.
Qed.

Lemma string_length_app (s t : string) :
  String.length (s ++ t) = (String.length s + String.length t)%nat.
Proof. induction s as [|a s IH]; simpl; [reflexivity | by rewrite IH]. Qed.

(** ** Further properties of the invocation *)

(** X1. When the credential fails with a plain error (no HTTP response)
    of message [m], the invocation logs it and answers status 500 with body
    [m]; it queries no metrics, touches no table row and sends no e-mail. *)
Theorem httpTrigger_token_failure (E : env) (w : world) m :
  env_token E = Err (MsgErr m) ->
  run E httpTrigger w =
    (Ok {| status := 500; body := m |}, push (EvLog (LogError (MsgErr m))) (push EvToken w)).
Proof. intros H. rewrite httpTrigger_run, H. reflexivity. Qed.

Lemma httpTrigger_token_failure_witness :
  run no_token_env httpTrigger (init_world store500) =
    (Ok {| status := 500; body := "CredentialUnavailableError" |},
     push (EvLog (LogError (MsgErr "CredentialUnavailableError")))
       (push EvToken (init_world store500))).
Proof. exact (httpTrigger_token_failure no_token_env (init_world store500) _ eq_refl). Defined.

(** X2. When the metrics query fails with an HTTP error of non-zero status
    [s] and non-empty data [d], the invocation answers with status [s] and
    body [d], after logging the error; the table and the e-mail service are
    not used. *)
Theorem httpTrigger_metrics_http_error (E : env) (w : world) tok s d :
  env_token E = Ok tok -> env_metrics E = Err (HttpErr s d) -> s <> 0 -> d <> "" ->
  run E httpTrigger w =
    (Ok {| status := s; body := d |},
     push (EvLog (LogError (HttpErr s d))) (push EvMetrics (push EvToken w))).
Proof.
  intros Ht Hm Hs Hd. rewrite httpTrigger_run, Ht, Hm. simpl.
  destruct (decide (s = 0)); [contradiction|]. destruct (decide (d = "")); [contradiction|].
  reflexivity.
Qed.

Lemma httpTrigger_metrics_http_error_witness :
  fst (run metrics_denied_env httpTrigger (init_world ∅)) =
    Ok {| status := 403; body := "AuthorizationFailed" |}.
Proof.
  rewrite (httpTrigger_metrics_http_error metrics_denied_env (init_world ∅) "token"
             403 "AuthorizationFailed" eq_refl eq_refl); [reflexivity | lia | discriminate].
Defined.

(** X3. In any environment (overlapping writers and table failures
    included), an invocation sends no e-mail when the token or the metrics
    request fails, and otherwise at most one e-mail per entry of the
    timeseries: for each deployment name, no more e-mails than entries with
    that name. Every e-mail is for a deployment of the timeseries, with that
    deployment's summed usage, which is above [THRESHOLD]. *)
Theorem httpTrigger_emails (E : env) (w : world) r w' :
  run E httpTrigger w = (r, w') ->
  (emails w w' <= match env_token E, env_metrics E with
                  | Ok _, Ok ts => length ts | _, _ => 0 end)%nat /\
  (forall n, length (filter (fun ev => is_email_for n ev = true) (new_events w w')) <=
     match env_token E, env_metrics E with
     | Ok _, Ok ts => length (filter (fun d => metadatavalue d = n) ts) | _, _ => 0 end)%nat /\
  (forall n s x, EvEmail n s x ∈ new_events w w' ->
     exists tok ts d, env_token E = Ok tok /\ env_metrics E = Ok ts /\ d ∈ ts /\
       n = metadatavalue d /\ s = foldl Z.add 0 (data d) /\ (THRESHOLD < s)%Z).
Proof.
  rewrite httpTrigger_run. intros Hrun.
  destruct (env_token E) as [tok|e].
  - destruct (env_metrics E) as [ts|e].
    + injection Hrun as <- <-.
      destruct (reconcile_all_emails E (substring 0 7 (env_now E (w_clock w))) ts
                  (tick (push EvMetrics (push EvToken w)))) as (l & Ht & Hn & Hf & He).
      assert (Hnew : new_events w (reconcile_all E (substring 0 7 (env_now E (w_clock w))) ts
                        (tick (push EvMetrics (push EvToken w)))) = l ++ [EvMetrics; EvToken]).
      { apply new_events_app. rewrite Ht, <- app_assoc. reflexivity. }
      unfold emails. rewrite Hnew, !filter_app, !length_app. split; [|split].
      * simpl. lia.
      * intros n. rewrite filter_app, length_app. specialize (Hf n). simpl. lia.
      * intros n s x Hin. apply elem_of_app in Hin as [Hin|Hin].
        -- destruct (He _ _ _ Hin) as (d & Hrest). exists tok, ts, d. auto.
        -- elem_cases Hin.
    + injection Hrun as <- <-. new_ev. split; [lia|]. split; [intros; simpl; lia|].
      intros n s x Hin. elem_cases Hin.
  - injection Hrun as <- <-. new_ev. split; [lia|]. split; [intros; simpl; lia|].
    intros n s x Hin. elem_cases Hin.
Qed.

Lemma httpTrigger_emails_witness :
  let '(r, w') := run alert_env httpTrigger (init_world ∅) in
  (emails (init_world ∅) w' <= 2)%nat.
Proof.
  destruct (run alert_env httpTrigger (init_world ∅)) as [r w'] eqn:Hr.
  exact (proj1 (httpTrigger_emails alert_env (init_world ∅) r w' Hr)).
Defined.

(** X4. In any environment, one reconciliation sends at most one e-mail,
    and only for its own deployment, with its own usage, and when that usage
    is above [THRESHOLD]. *)
Theorem reconcile_at_most_one_email (E : env) name sum month (w : world) r w' :
  reconcile E name sum month w = (r, w') ->
  (emails w w' <= 1)%nat /\
  (forall n s x, EvEmail n s x ∈ new_events w w' -> n = name /\ s = sum /\ (THRESHOLD < s)%Z).
Proof. apply reconcile_email_facts. Qed.

Lemma reconcile_at_most_one_email_witness :
  let '(r, w') := reconcile (honest_env "Failed") "gpt4dev" 1500 "2024-10"
                    (init_world store500) in
  (emails (init_world store500) w' <= 1)%nat.
Proof.
  destruct (reconcile (honest_env "Failed") "gpt4dev" 1500 "2024-10" (init_world store500))
    as [r w'] eqn:Hr.
  exact (proj1 (reconcile_at_most_one_email (honest_env "Failed") "gpt4dev" 1500 "2024-10"
                  (init_world store500) r w' Hr)).
Defined.

(** X5. With no overlapping writer, on a table whose rows sit under their
    own keys, a reconciliation leaves every row other than its own
    (deployment, month) row as it was. *)
Theorem reconcile_frame (E : env) name sum month (w : world) r w' k :
  alone E -> wf_store (w_store w) ->
  reconcile E name sum month w = (r, w') ->
  k <> row_key name month ->
  w_store w' !! k = w_store w !! k.
Proof.
  intros HA Hwf Hrun Hk. unfold row_key in Hk. from_run Hrun. crush_with env_wf.
  all: try reflexivity; try contradiction.
Qed.

Lemma reconcile_frame_witness :
  let '(r, w') := reconcile (honest_env "Succeeded") "gpt4dev" 1500 "2024-10"
                    (init_world store500) in
  w_store w' !! row_key "gpt35" "2024-10" = None.
Proof.
  destruct (reconcile (honest_env "Succeeded") "gpt4dev" 1500 "2024-10" (init_world store500))
    as [r w'] eqn:Hr.
  rewrite (reconcile_frame (honest_env "Succeeded") "gpt4dev" 1500 "2024-10"
             (init_world store500) r w' (row_key "gpt35" "2024-10")
             (fun n st => eq_refl) wf_store500 Hr); [reflexivity|].
  vm_compute. congruence.
Defined.

(** X7. No row yet, a usage at or below [THRESHOLD], a table without
    failures and no overlapping writer: the reconciliation reads (404),
    creates the row with the usage, [ActionDone = false] and the current
    time, logs that no alert is needed, and does nothing else (no e-mail, no
    update). *)
Theorem new_row_below_threshold (E : env) name sum month (w : world) r w' :
  alone E -> reliable E ->
  w_store w !! row_key name month = None ->
  (sum <= THRESHOLD)%Z ->
  reconcile E name sum month w = (r, w') ->
  let e := mkEntity "DeploymentType" (name ++ "-" ++ month) sum false (env_now E (w_clock w)) in
  r = Ok () /\
  w_store w' = <[row_key name month := e]> (w_store w) /\
  new_events w w' =
    [EvLog (LogNoAlert name); EvCreate e (Ok ());
     EvGet "DeploymentType" (name ++ "-" ++ month) (Err (StatusErr 404))].
Proof.
  intros HA HR Hl Hle Hrun. unfold row_key in *. from_run Hrun. crush_with use_env.
  all: try lia.
  all: try (unfold shouldSendAlert, THRESHOLD in *; simpl in *;
            match goal with H : (_ <? _)%Z = true |- _ => apply Z.ltb_lt in H end; lia).
  all: auto.
Qed.

Lemma new_row_below_threshold_witness :
  let '(r, w') := reconcile (honest_env "Succeeded") "gpt4dev" 300 "2024-10" (init_world ∅) in
  r = Ok ().
Proof.
  destruct (reconcile (honest_env "Succeeded") "gpt4dev" 300 "2024-10" (init_world ∅))
    as [r w'] eqn:Hr.
  refine (proj1 (new_row_below_threshold (honest_env "Succeeded") "gpt4dev" 300 "2024-10"
            (init_world ∅) r w' (fun n st => eq_refl) (fun n => eq_refl) eq_refl _ Hr)).
  unfold THRESHOLD; lia.
Defined.

(** X8. No row yet, a usage above [THRESHOLD], a table without failures,
    no overlapping writer and an e-mail service answering "Succeeded": the
    row is created with [ActionDone = false], one e-mail is sent, and the
    row is written once more with [ActionDone = true] and a later
    [LastUpdated]; the usage update never runs, as the created row already
    holds the usage. *)
Theorem new_row_alert (E : env) name sum month (w : world) r w' :
  alone E -> reliable E ->
  w_store w !! row_key name month = None ->
  (THRESHOLD < sum)%Z -> env_email E name sum = Ok "Succeeded" ->
  reconcile E name sum month w = (r, w') ->
  let e := mkEntity "DeploymentType" (name ++ "-" ++ month) sum false (env_now E (w_clock w)) in
  let e' := set_ActionDone true (env_now E (S (w_clock w))) e in
  r = Ok () /\
  w_store w' = <[row_key name month := e']> (w_store w) /\
  new_events w w' =
    [EvUpdate e' (Ok ()); EvLog (LogAlertSent name); EvEmail name sum (Ok "Succeeded");
     EvCreate e (Ok ());
     EvGet "DeploymentType" (name ++ "-" ++ month) (Err (StatusErr 404))].
Proof.
  intros HA HR Hl Hlt Hm Hrun. unfold row_key in *. from_run Hrun. crush_with use_env.
  all: try lia.
  all: try (unfold shouldSendAlert, THRESHOLD in *; simpl in *;
            match goal with H : (_ <? _)%Z = false |- _ => apply Z.ltb_ge in H end; lia).
  all: repeat split; try reflexivity.
  rewrite insert_insert_eq. reflexivity.
Qed.

Lemma new_row_alert_witness :
  let '(r, w') := reconcile (honest_env "Succeeded") "gpt4dev" 1500 "2024-10" (init_world ∅) in
  r = Ok ().
Proof.
  destruct (reconcile (honest_env "Succeeded") "gpt4dev" 1500 "2024-10" (init_world ∅))
    as [r w'] eqn:Hr.
  refine (proj1 (new_row_alert (honest_env "Succeeded") "gpt4dev" 1500 "2024-10"
            (init_world ∅) r w' (fun n st => eq_refl) (fun n => eq_refl) eq_refl _ eq_refl Hr)).
  unfold THRESHOLD; lia.
Defined.

(** X9. When the read of the row fails with a status other than 404, the
    reconciliation stops there: nothing is created, written or e-mailed, and
    the failure is logged as an error of this deployment, which does not
    propagate. *)
Theorem read_failure_aborts (E : env) name sum month (w : world) r w' c :
  env_fault E (w_ops w) = Some c -> c <> 404 ->
  reconcile E name sum month w = (r, w') ->
  r = Ok () /\ w_store w' = env_other E (w_ops w) (w_store w) /\
  new_events w w' =
    [EvLog (LogErrorProcessing name (StatusErr c));
     EvGet "DeploymentType" (name ++ "-" ++ month) (Err (StatusErr c))].
Proof.
  intros Hf Hc Hrun. from_run Hrun. crush_run.
  all: auto.
Qed.

Lemma read_failure_aborts_witness :
  let '(r, w') := reconcile two_deployments_env "gpt4dev" 1500 "2024-10" (init_world store500) in
  w_store w' = store500.
Proof.
  destruct (reconcile two_deployments_env "gpt4dev" 1500 "2024-10" (init_world store500))
    as [r w'] eqn:Hr.
  refine (proj1 (proj2 (read_failure_aborts two_deployments_env "gpt4dev" 1500 "2024-10"
            (init_world store500) r w' 503 eq_refl _ Hr))).
  lia.
Defined.

(** X10. With a table without failures, no overlapping writer and rows
    under their own keys, a reconciliation logs an error only when it sent
    an e-mail whose answer was not "Succeeded". *)
Theorem error_only_from_email (E : env) name sum month (w : world) r w' :
  alone E -> reliable E -> wf_store (w_store w) ->
  reconcile E name sum month w = (r, w') ->
  Exists (fun ev => is_error_log ev = true) (new_events w w') ->
  exists x, EvEmail name sum x ∈ new_events w w' /\ x <> Ok "Succeeded".
Proof.
  intros HA HR Hwf Hrun. from_run Hrun. crush_with env_wf.
  all: intros Hx; revert Hx; rewrite ?Exists_cons, ?Exists_nil; simpl; intros Hx;
       decompose [or] Hx; try discriminate; try contradiction.
  all: eexists; split; [pick_elem | congruence].
Qed.

Lemma error_only_from_email_witness :
  let '(r, w') := reconcile (honest_env "Failed") "gpt4dev" 1500 "2024-10"
                    (init_world store500) in
  exists x, EvEmail "gpt4dev" 1500 x ∈ new_events (init_world store500) w' /\
    x <> Ok "Succeeded".
Proof.
  destruct (reconcile (honest_env "Failed") "gpt4dev" 1500 "2024-10" (init_world store500))
    as [r w'] eqn:Hr.
  refine (error_only_from_email (honest_env "Failed") "gpt4dev" 1500 "2024-10"
            (init_world store500) r w' (fun n st => eq_refl) (fun n => eq_refl) wf_store500 Hr _).
  vm_compute in Hr. injection Hr as <- <-. vm_compute. pick_exists.
Defined.

(** X11. For months of the same length (as the seven characters of
    [getCurrentMonthString] are), the row key [deploymentName-month]
    determines both the deployment and the month: distinct deployments of
    one month, and distinct months of one deployment, use distinct rows. *)
Theorem row_keys_distinct (name1 name2 month1 month2 : string) :
  String.length month1 = String.length month2 ->
  row_key name1 month1 = row_key name2 month2 -> name1 = name2 /\ month1 = month2.
Proof.
  unfold row_key. intros Hlen Heq. injection Heq as Heq.
  revert name2 Heq. induction name1 as [|a n1 IH]; intros [|b n2] Heq; simpl in Heq.
  - injection Heq as Heq. done.
  - injection Heq as <- Heq. apply (f_equal String.length) in Heq.
    rewrite ?string_length_app in Heq. simpl in Heq. lia.
  - injection Heq as -> Heq. apply (f_equal String.length) in Heq.
    rewrite ?string_length_app in Heq. simpl in Heq. lia.
  - injection Heq as -> Heq. destruct (IH _ Heq) as [-> ->]. done.
Qed.

Lemma row_keys_distinct_witness :
  "gpt4dev" = "gpt4dev" /\ "2024-10" = "2024-10".
Proof.
  exact (row_keys_distinct "gpt4dev" "gpt4dev" "2024-10" "2024-10" eq_refl eq_refl).
Defined.
